(** * The vcpkg experiment of geodepot: an OGR extent and spatial-reference probe

    Shallow embedding of [src/experiments/vcpkg/main.cpp].  The program is a
    straight line of calls into GDAL/OGR, the C runtime and spdlog, with one
    guard after the open.  The calls are embedded as operations of a small
    monad over the process state; undefined behaviour of the C++ abstract
    machine (null receivers, indeterminate pointer values, dangling
    pointers) is an explicit outcome. *)

From stdpp Require Import gmap strings list fin_maps.
From Stdlib Require Import ZArith.

Local Open Scope Z_scope.
Local Open Scope string_scope.
Local Open Scope list_scope.

(** ** Values *)

(** A C [double], carried as its IEEE-754 binary64 bit pattern.  The program
    never computes with the numbers, it only moves them from the layer to
    the logger. *)
Definition double : Type := Z.

(** [OGREnvelope], with the fields in the order of [ogr_core.h]. *)
Record OGREnvelope : Type := mkEnvelope {
  MinX : double;
  MaxX : double;
  MinY : double;
  MaxY : double
}.

(** A C pointer to a [T].  A declared but never assigned pointer holds an
    indeterminate value. *)
Inductive pointer (T : Type) : Type :=
| Indeterminate
| Null
| Ref (t : T).
Arguments Indeterminate {T}.
Arguments Null {T}.
Arguments Ref {T} t.

(** [OGRErr] as returned by the OGR calls. *)
Inductive OGRErr : Type := OGRERR_NONE | OGRERR_FAILURE.

(** What is stored on disk for one layer: the extent, when one can be
    computed, and the well-known text of the spatial reference, when the
    layer has one. *)
Record layer : Type := mkLayer {
  l_extent : option OGREnvelope;
  l_srs : option string
}.

(** A vector dataset on disk: the driver that reads its format, and its
    layers. *)
Record dataset : Type := mkDataset {
  d_driver : string;
  d_layers : list layer
}.

(** [GDALDataset*] points to an open handle, [OGRLayer*] and
    [OGRSpatialReference*] to a layer of an open handle (a layer and its
    spatial reference are owned by the dataset), [OGREnvelope*] and [char*]
    to an address. *)
Abbreviation handle := nat (only parsing).
Abbreviation layer_ref := (nat * nat)%type (only parsing).
Abbreviation srs_ref := (nat * nat)%type (only parsing).
Abbreviation address := nat (only parsing).

(** ** Events and outcomes *)

Inductive fmt_arg : Type :=
| FDouble (d : double)
| FString (s : string).

(** The calls by which the process acts on the world outside the program
    text.  [EvPdal] stands for any operation of the point-cloud library whose
    headers the program includes, [EvDatasetWrite] for any write to a dataset
    on disk. *)
Inductive event : Type :=
| EvAllRegister
| EvOpenEx (pszFilename : pointer string) (nOpenFlags : Z) (ret : pointer handle)
| EvPrintf (text : string)
| EvGetLayer (this : handle) (iLayer : Z) (ret : pointer layer_ref)
| EvGetExtent (this : layer_ref) (psExtent : address) (ret : OGRErr)
| EvLogInfo (fmt : string) (args : list fmt_arg)
| EvGetSpatialRef (this : layer_ref) (ret : pointer srs_ref)
| EvExportToWkt (this : srs_ref) (buf : address)
| EvCPLFree (p : pointer address)
| EvClose (hDS : pointer handle)
| EvPdal (operation : string)
| EvDatasetWrite (path : string).

(** Where the abstract machine left defined behaviour, and why. *)
Inductive site : Type :=
| AtOpenEx | AtNullCheck | AtGetLayer | AtGetExtent | AtEnvelopeRead
| AtGetSpatialRef | AtExportToWkt | AtStringRead | AtCPLFree | AtClose.

Inductive fault : Type :=
| NullPointer
| IndeterminateValue
| DanglingPointer.

Inductive outcome (A : Type) : Type :=
| Return (a : A)
| Exited (code : Z)
| Undefined (where_ : site) (why : fault).
Arguments Return {A} a.
Arguments Exited {A} code.
Arguments Undefined {A} where_ why.

(** ** Process state *)

Record process : Type := mkProcess {
  files : gmap string dataset;        (* the datasets on disk, by path *)
  builtin : list string;              (* drivers compiled into the library *)
  registry : list string;             (* registered drivers, process-wide *)
  datasets : gmap handle dataset;     (* open dataset handles *)
  envelopes : gmap address OGREnvelope; (* live OGREnvelope objects *)
  cstrings : gmap address string;     (* live CPLMalloc'ed strings *)
  next_handle : nat;                  (* next handle or address to hand out *)
  trace : list event                  (* the calls so far, oldest first *)
}.

Definition set_registry (r : list string) (s : process) : process :=
  mkProcess (files s) (builtin s) r (datasets s) (envelopes s) (cstrings s)
            (next_handle s) (trace s).

Definition set_datasets (d : gmap handle dataset) (s : process) : process :=
  mkProcess (files s) (builtin s) (registry s) d (envelopes s) (cstrings s)
            (next_handle s) (trace s).

Definition set_envelopes (e : gmap address OGREnvelope) (s : process) : process :=
  mkProcess (files s) (builtin s) (registry s) (datasets s) e (cstrings s)
            (next_handle s) (trace s).

Definition set_cstrings (c : gmap address string) (s : process) : process :=
  mkProcess (files s) (builtin s) (registry s) (datasets s) (envelopes s) c
            (next_handle s) (trace s).

Definition bump (s : process) : process :=
  mkProcess (files s) (builtin s) (registry s) (datasets s) (envelopes s)
            (cstrings s) (S (next_handle s)) (trace s).

Definition emit (e : event) (s : process) : process :=
  mkProcess (files s) (builtin s) (registry s) (datasets s) (envelopes s)
            (cstrings s) (next_handle s) (trace s ++ [e]).

(** A process at the start of [main]: nothing registered, nothing open,
    nothing allocated, nothing done. *)
Definition start (fs : gmap string dataset) (built : list string) : process :=
  mkProcess fs built [] ∅ ∅ ∅ 0 [].

(** ** The monad of the program *)

Definition M (A : Type) : Type := process → outcome A * process.

#[global] Instance M_ret : MRet M := λ A a s, (Return a, s).

#[global] Instance M_bind : MBind M := λ A B f m s,
  match m s with
  | (Return a, s') => f a s'
  | (Exited c, s') => (Exited c, s')
  | (Undefined w y, s') => (Undefined w y, s')
  end.

Definition undefined {A} (w : site) (y : fault) : M A := λ s, (Undefined w y, s).

Definition gets {A} (f : process → A) : M A := λ s, (Return (f s), s).

Definition modify (f : process → process) : M unit := λ s, (Return tt, f s).

Definition call (e : event) : M unit := modify (emit e).

(** A fresh handle or address. *)
Definition fresh : M nat :=
  n ← gets next_handle;
  modify bump;;
  mret n.

(** Dereferencing a pointer at [w]: only a [Ref] has a target. *)
Definition deref {T} (w : site) (p : pointer T) : M T :=
  match p with
  | Indeterminate => undefined w IndeterminateValue
  | Null => undefined w NullPointer
  | Ref t => mret t
  end.

(** The open dataset behind a handle. *)
Definition live_dataset (w : site) (h : handle) : M dataset :=
  ds ← gets datasets;
  match ds !! h with
  | Some d => mret d
  | None => undefined w DanglingPointer
  end.

(** The layer a live [OGRLayer*] (or the spatial reference's owner) names. *)
Definition live_layer (w : site) (r : layer_ref) : M layer :=
  d ← live_dataset w r.1;
  match d_layers d !! r.2 with
  | Some l => mret l
  | None => undefined w DanglingPointer
  end.

(** ** The command line *)

(** [argv] of a hosted program: the program name and the positional
    arguments ([argc] is at least 1). *)
Record cmdline : Type := mkCmdline {
  argv0 : string;
  positional : list string
}.

Definition argc (argv : cmdline) : nat := S (length (positional argv)).

(** [argv[i]]: the [argc] strings, then the null terminator [argv[argc]].
    Nothing is stored behind the terminator. *)
Definition argv_at (argv : cmdline) (i : nat) : pointer string :=
  match (argv0 argv :: positional argv) !! i with
  | Some a => Ref a
  | None => if decide (i = argc argv) then Null else Indeterminate
  end.

(** ** The library calls the program makes

    GDAL/OGR, CPL, the C runtime and spdlog are external collaborators of the
    program and no part of src/.  Each call is given, on the state above,
    the behaviour the specification and the library's API describe. *)

(** Modelled from the spec: GDAL's per-driver registration, absent from
    src/.  Registration is guarded (section 9): a driver already in the
    registry is not registered again. *)
Definition GDALRegister (d : string) (reg : list string) : list string :=
  if bool_decide (d ∈ reg) then reg else reg ++ [d].

(** Modelled from the spec: the body of GDAL's [GDALAllRegister], absent
    from src/: every supported driver is registered (section 4.1, step 1). *)
Fixpoint register_all (built reg : list string) : list string :=
  match built with
  | [] => reg
  | d :: ds => register_all ds (GDALRegister d reg)
  end.

(** Modelled from the spec: [GDALAllRegister], absent from src/, acts on
    the process-wide registry (section 4.1, step 1). *)
Definition GDALAllRegister : M unit :=
  modify (λ s, set_registry (register_all (builtin s) (registry s)) s);;
  call EvAllRegister.

(** Open flags of [gdal.h]: vector access, and the mask of the kind bits. *)
Definition GDAL_OF_VECTOR : Z := 4.
Definition GDAL_OF_KIND_MASK : Z := 30.

(** Vector drivers are tried when the vector bit is set, or when no kind bit
    is set at all. *)
Definition wants_vector (nOpenFlags : Z) : bool :=
  Z.testbit nOpenFlags 2 || (Z.land nOpenFlags GDAL_OF_KIND_MASK =? 0)%Z.

Definition driver_allowed (papszAllowedDrivers : option (list string)) (d : string) : bool :=
  match papszAllowedDrivers with
  | None => true
  | Some l => bool_decide (d ∈ l)
  end.

(** The handle [GDALOpenEx] would return for a file name, before anything is
    allocated: [None] when no registered, allowed vector driver opens it. *)
Definition openable (s : process) (pszFilename : string) (nOpenFlags : Z)
    (papszAllowedDrivers : option (list string)) : option dataset :=
  match files s !! pszFilename with
  | Some d =>
      if wants_vector nOpenFlags
         && bool_decide (d_driver d ∈ registry s)
         && driver_allowed papszAllowedDrivers (d_driver d)
      then Some d else None
  | None => None
  end.

(** Modelled from the spec: [GDALOpenEx], absent from src/, opens the
    dataset at a path in read mode for vector access (section 4.1, step 2):
    a file that a registered vector driver recognises gets a fresh handle,
    anything else, a nonexistent path included (section 8), gives a null
    handle.  The library validates the file name before use and rejects a
    null one with a null handle.  The file on disk is not touched. *)
Definition GDALOpenEx (pszFilename : pointer string) (nOpenFlags : Z)
    (papszAllowedDrivers papszOpenOptions papszSiblingFiles : option (list string))
    : M (pointer handle) :=
  match pszFilename with
  | Indeterminate => undefined AtOpenEx IndeterminateValue
  | Null => call (EvOpenEx Null nOpenFlags Null);; mret Null
  | Ref p =>
      s ← gets id;
      match openable s p nOpenFlags papszAllowedDrivers with
      | Some d =>
          h ← fresh;
          modify (λ s, set_datasets (<[h := d]> (datasets s)) s);;
          call (EvOpenEx (Ref p) nOpenFlags (Ref h));;
          mret (Ref h)
      | None => call (EvOpenEx (Ref p) nOpenFlags Null);; mret Null
      end
  end.

(** The C runtime: [printf] of a plain string writes it to standard output,
    [exit] ends the process with the code. *)
Definition printf (text : string) : M unit := call (EvPrintf text).

Definition exit {A} (code : Z) : M A := λ s, (Exited code, s).

(** Modelled from the spec: [GDALDataset::GetLayer(int)], absent from src/,
    retrieves the layer at the index (section 4.1, step 3) and gives a null
    layer when the dataset has none there (section 9). *)
Definition GetLayer (this : pointer handle) (iLayer : Z) : M (pointer layer_ref) :=
  h ← deref AtGetLayer this;
  d ← live_dataset AtGetLayer h;
  let ret : pointer layer_ref :=
    if ((0 <=? iLayer) && (iLayer <? Z.of_nat (length (d_layers d))))%Z
    then Ref (h, Z.to_nat iLayer) else Null in
  call (EvGetLayer h iLayer ret);;
  mret ret.

(** The [OGREnvelope] object a pointer refers to. *)
Definition live_envelope (w : site) (p : pointer address) : M (address * OGREnvelope) :=
  a ← deref w p;
  es ← gets envelopes;
  match es !! a with
  | Some e => mret (a, e)
  | None => undefined w DanglingPointer
  end.

(** Modelled from the spec: [OGRLayer::GetExtent(OGREnvelope *psExtent)],
    absent from src/, queries the bounding envelope of the layer (section
    4.1, step 4): the extent is written through the pointer and
    [OGRERR_NONE] is returned; when no extent can be computed the envelope
    is left as it is and [OGRERR_FAILURE] is returned. *)
Definition GetExtent (this : pointer layer_ref) (psExtent : pointer address) : M OGRErr :=
  r ← deref AtGetExtent this;
  l ← live_layer AtGetExtent r;
  '(a, _) ← live_envelope AtGetExtent psExtent;
  match l_extent l with
  | Some e =>
      modify (λ s, set_envelopes (<[a := e]> (envelopes s)) s);;
      call (EvGetExtent r a OGRERR_NONE);;
      mret OGRERR_NONE
  | None =>
      call (EvGetExtent r a OGRERR_FAILURE);;
      mret OGRERR_FAILURE
  end.

(** Reading the members of [*poEnvelope]. *)
Definition read_envelope (p : pointer address) : M OGREnvelope :=
  '(_, e) ← live_envelope AtEnvelopeRead p;
  mret e.

(** Modelled from the spec: [spdlog::info(fmt, args...)], absent from src/,
    is the logging sink that takes a format string and positional arguments
    (section 6): one log line per call. *)
Definition spdlog_info (fmt : string) (args : list fmt_arg) : M unit :=
  call (EvLogInfo fmt args).

(** Modelled from the spec: [OGRLayer::GetSpatialRef()], absent from src/,
    gives the layer's spatial reference (section 4.1, step 5), or null when
    the layer has none (section 9). *)
Definition GetSpatialRef (this : pointer layer_ref) : M (pointer srs_ref) :=
  r ← deref AtGetSpatialRef this;
  l ← live_layer AtGetSpatialRef r;
  let ret : pointer srs_ref :=
    match l_srs l with Some _ => Ref r | None => Null end in
  call (EvGetSpatialRef r ret);;
  mret ret.

(** Modelled from the spec: [OGRSpatialReference::exportToWkt(char **ppszResult)],
    absent from src/, exports the spatial reference to well-known text
    (section 4.1, step 5) in a string buffer that it allocates (section
    4.1, side effects).  The buffer is stored in the out-parameter, whose
    new value is returned here with the error code. *)
Definition exportToWkt (this : pointer srs_ref) (ppszResult : pointer address)
    : M (OGRErr * pointer address) :=
  r ← deref AtExportToWkt this;
  l ← live_layer AtExportToWkt r;
  match l_srs l with
  | Some wkt =>
      a ← fresh;
      modify (λ s, set_cstrings (<[a := wkt]> (cstrings s)) s);;
      call (EvExportToWkt r a);;
      mret (OGRERR_NONE, Ref a)
  | None => undefined AtExportToWkt DanglingPointer
  end.

(** Reading the C string a [char*] points to, as the formatter does. *)
Definition read_cstring (p : pointer address) : M string :=
  a ← deref AtStringRead p;
  cs ← gets cstrings;
  match cs !! a with
  | Some w => mret w
  | None => undefined AtStringRead DanglingPointer
  end.

(** Modelled from the spec: [CPLFree], absent from src/, releases the
    string buffer (section 4.1, step 6); a null pointer is accepted and
    nothing is freed. *)
Definition CPLFree (p : pointer address) : M unit :=
  match p with
  | Indeterminate => undefined AtCPLFree IndeterminateValue
  | Null => call (EvCPLFree Null)
  | Ref a =>
      cs ← gets cstrings;
      match cs !! a with
      | Some _ =>
          modify (set_cstrings (delete a cs));;
          call (EvCPLFree (Ref a))
      | None => undefined AtCPLFree DanglingPointer
      end
  end.

(** Modelled from the spec: [GDALClose], absent from src/, releases the
    dataset handle (section 4.1, step 6); a null handle is rejected without
    effect. *)
Definition GDALClose (hDS : pointer handle) : M unit :=
  match hDS with
  | Indeterminate => undefined AtClose IndeterminateValue
  | Null => call (EvClose Null)
  | Ref h =>
      ds ← gets datasets;
      match ds !! h with
      | Some _ =>
          modify (set_datasets (delete h ds));;
          call (EvClose (Ref h))
      | None => undefined AtClose DanglingPointer
      end
  end.

(** ** The program *)

Definition newline : string := String (Ascii.ascii_of_nat 10) EmptyString.

(** Lines 31-32: the extent query and the first log line.  The error code of
    [GetExtent] is dropped. *)
Definition log_bbox (poLayer : pointer layer_ref) (poEnvelope : pointer address) : M unit :=
  _ ← GetExtent poLayer poEnvelope;
  e ← read_envelope poEnvelope;
  spdlog_info "OGR bbox: {} {} {} {}"
              [FDouble (MinX e); FDouble (MinY e); FDouble (MaxX e); FDouble (MaxY e)].

(** Lines 33-35: the spatial-reference query, the export, and the second log
    line.  Returns [pszSRS_WKT]. *)
Definition log_spatial_ref (poLayer : pointer layer_ref) : M (pointer address) :=
  let pszSRS_WKT : pointer address := Null in
  poSRS ← GetSpatialRef poLayer;
  '(_, pszSRS_WKT) ← exportToWkt poSRS pszSRS_WKT;
  wkt ← read_cstring pszSRS_WKT;
  spdlog_info "OGR spatial reference: {}" [FString wkt];;
  mret pszSRS_WKT.

(** Lines 31-39, as a function of the three locals in scope. *)
Definition report (poDS : pointer handle) (poLayer : pointer layer_ref)
    (poEnvelope : pointer address) : M Z :=
  log_bbox poLayer poEnvelope;;
  pszSRS_WKT ← log_spatial_ref poLayer;
  CPLFree pszSRS_WKT;;
  GDALClose poDS;;
  mret 0.

(** Lines 15-40. *)
Definition main (argv : cmdline) : M Z :=
  let path_gdal := argv_at argv 1 in
  GDALAllRegister;;
  poDS ← GDALOpenEx path_gdal GDAL_OF_VECTOR None None None;
  match poDS with
  | Indeterminate => undefined AtNullCheck IndeterminateValue
  | Null =>
      printf ("Open failed." +:+ newline);;
      exit 1
  | Ref _ =>
      poLayer ← GetLayer poDS 0;
      let poEnvelope : pointer address := Indeterminate in
      report poDS poLayer poEnvelope
  end.

(** One run of the program: [main] from a fresh process; returning from
    [main] exits with the returned code. *)
Definition run (argv : cmdline) (fs : gmap string dataset) (built : list string)
    : outcome Z * process :=
  match main argv (start fs built) with
  | (Return c, s) => (Exited c, s)
  | r => r
  end.

(** What a run shows to its caller. *)
Definition is_log (e : event) : bool :=
  match e with EvLogInfo _ _ => true | _ => false end.

Definition log_lines (s : process) : list event := filter is_log (trace s).

(** The state a process is left in by a computation. *)
Definition exec {A} (m : M A) (s : process) : process := (m s).2.

(** The process after line 19, the registration. *)
Definition registered (s : process) : process :=
  emit EvAllRegister (set_registry (register_all (builtin s) (registry s)) s).

(** The process after a successful open of [d] at line 22. *)
Definition with_open (p : string) (d : dataset) (s : process) : process :=
  emit (EvOpenEx (Ref p) GDAL_OF_VECTOR (Ref (next_handle s)))
       (set_datasets (<[next_handle s := d]> (datasets s)) (bump s)).

(** The three calls of a run whose open gives a null handle. *)
Definition failure_trace (path : pointer string) : list event :=
  [EvAllRegister; EvOpenEx path GDAL_OF_VECTOR Null; EvPrintf ("Open failed." +:+ newline)].

(** The file name and the dataset that the open of a run finds: the dataset
    stored under [argv[1]], when one of the built-in drivers reads it. *)
Definition opens (argv : cmdline) (fs : gmap string dataset) (built : list string)
    : option (string * dataset) :=
  match argv_at argv 1 with
  | Ref p =>
      match fs !! p with
      | Some d => if bool_decide (d_driver d ∈ built) then Some (p, d) else None
      | None => None
      end
  | _ => None
  end.

(** The calls of lines 31-37 when all of them return. *)
Definition report_trace (poDS : pointer handle) (r : layer_ref) (a : address)
    (err : OGRErr) (e : OGREnvelope) (b : address) (wkt : string) : list event :=
  [EvGetExtent r a err;
   EvLogInfo "OGR bbox: {} {} {} {}"
             [FDouble (MinX e); FDouble (MinY e); FDouble (MaxX e); FDouble (MaxY e)];
   EvGetSpatialRef r (Ref r);
   EvExportToWkt r b;
   EvLogInfo "OGR spatial reference: {}" [FString wkt];
   EvCPLFree (Ref b);
   EvClose poDS].

(** The calls that touch a layer or log a result. *)
Definition is_probe_call (e : event) : bool :=
  match e with
  | EvGetLayer _ _ _ | EvGetExtent _ _ _ | EvGetSpatialRef _ _
  | EvExportToWkt _ _ | EvLogInfo _ _ => true
  | _ => false
  end.

(** What a call does to the world around the program.  The three layer
    queries only read the open dataset (the extent is written to the
    caller's envelope) and have no effect of their own. *)
Inductive effect : Type :=
| Registration        (* the process-wide driver registry *)
| Output              (* standard output and the log sink *)
| StringBuffer        (* allocation or release of a CPL string *)
| DatasetHandle       (* opening or closing a dataset handle *)
| PointCloud          (* anything the point-cloud library does *)
| DatasetMutation.    (* a write to a dataset on disk *)

Definition effect_of (e : event) : option effect :=
  match e with
  | EvAllRegister => Some Registration
  | EvPrintf _ | EvLogInfo _ _ => Some Output
  | EvExportToWkt _ _ | EvCPLFree _ => Some StringBuffer
  | EvOpenEx _ _ _ | EvClose _ => Some DatasetHandle
  | EvGetLayer _ _ _ | EvGetExtent _ _ _ | EvGetSpatialRef _ _ => None
  | EvPdal _ => Some PointCloud
  | EvDatasetWrite _ => Some DatasetMutation
  end.

Definition permitted (e : event) : bool :=
  match effect_of e with
  | Some PointCloud | Some DatasetMutation => false
  | _ => true
  end.

Definition is_open (e : event) : bool :=
  match e with EvOpenEx _ _ _ => true | _ => false end.

Definition is_export (e : event) : bool :=
  match e with EvExportToWkt _ _ => true | _ => false end.

(** A computation keeps the frame when it leaves the datasets on disk and
    the set of built-in drivers alone and makes permitted calls only. *)
Definition frames {A} (m : M A) : Prop :=
  ∀ s : process,
    files (m s).2 = files s ∧
    builtin (m s).2 = builtin s ∧
    ∃ t, trace (m s).2 = trace s ++ t ∧ Forall (λ e, permitted e = true) t.

(** ** Sample inputs *)

(** The doubles 0, 5 and 10, and the two infinities. *)
Definition d_0 : double := 0.
Definition d_5 : double := 0x4014000000000000.
Definition d_10 : double := 0x4024000000000000.
Definition d_inf : double := 0x7FF0000000000000.
Definition d_neg_inf : double := 0xFFF0000000000000.

Definition wgs84 : string := "GEOGCS[WGS 84]".

(** A layer spanning X in [0,10] and Y in [0,5] in WGS 84, and the same
    layer without its spatial reference. *)
Definition layer_wgs84 : layer := mkLayer (Some (mkEnvelope d_0 d_10 d_0 d_5)) (Some wgs84).
Definition layer_nosrs : layer := mkLayer (Some (mkEnvelope d_0 d_10 d_0 d_5)) None.

Definition a_shp : dataset := mkDataset "ESRI Shapefile" [layer_wgs84].
Definition nosrs_shp : dataset := mkDataset "ESRI Shapefile" [layer_nosrs].

(** A dataset without layers. *)
Definition empty_gpkg : dataset := mkDataset "GPKG" [].

(** The disk of the samples; no dataset is stored as [b.shp]. *)
Definition disk : gmap string dataset :=
  {[ "a.shp" := a_shp; "empty.gpkg" := empty_gpkg; "nosrs.shp" := nosrs_shp ]}.

Definition gdal_build : list string := ["ESRI Shapefile"; "GPKG"; "GeoJSON"].

Definition probe (args : list string) : cmdline := mkCmdline "probe" args.

(** A process at line 31, after the open of [d] from path [p] as handle 0,
    in which, unlike in any run of [main], a default-constructed
    [OGREnvelope] lives at address 7. *)
Definition opened (p : string) (d : dataset) : process :=
  mkProcess disk gdal_build gdal_build {[ 0%nat := d ]}
            {[ 7%nat := mkEnvelope d_inf d_neg_inf d_inf d_neg_inf ]} ∅ 8
            [EvAllRegister; EvOpenEx (Ref p) GDAL_OF_VECTOR (Ref 0%nat);
             EvGetLayer 0%nat 0 (Ref (0%nat, 0%nat))].


(** A layer without features, for which no extent can be computed, and a
    dataset made of it. *)
Definition layer_noextent : layer := mkLayer None (Some wgs84).
Definition noextent_shp : dataset := mkDataset "ESRI Shapefile" [layer_noextent].

(** * Properties *)

(** ** Driver registration *)

Lemma GDALRegister_keeps (d x : string) (reg : list string) :
  x ∈ reg → x ∈ GDALRegister d reg.
Proof.
  unfold GDALRegister. case_bool_decide; [done|]. intros Hx. apply elem_of_app. by left.
Qed.

Lemma GDALRegister_adds (d : string) (reg : list string) : d ∈ GDALRegister d reg.
Proof.
  unfold GDALRegister. case_bool_decide; [done|].
  apply elem_of_app. right. apply list_elem_of_singleton. done.
Qed.

Lemma GDALRegister_from (d x : string) (reg : list string) :
  x ∈ GDALRegister d reg → x = d ∨ x ∈ reg.
Proof.
  unfold GDALRegister. case_bool_decide; [by right|].
  intros [Hx|Hx]%elem_of_app; [by right|].
  left. by apply list_elem_of_singleton in Hx.
Qed.

Lemma register_all_keeps (built : list string) :
  ∀ (reg : list string) x, x ∈ reg → x ∈ register_all built reg.
Proof.
  induction built as [|d ds IH]; intros reg x Hx; simpl; [done|].
  apply IH, GDALRegister_keeps, Hx.
Qed.

Lemma register_all_adds (built : list string) :
  ∀ (reg : list string) x, x ∈ built → x ∈ register_all built reg.
Proof.
  induction built as [|d ds IH]; intros reg x Hx; simpl.
  - by apply elem_of_nil in Hx.
  - apply elem_of_cons in Hx as [->|Hx].
    + apply register_all_keeps, GDALRegister_adds.
    + by apply IH.
Qed.

Lemma register_all_from (built : list string) :
  ∀ (reg : list string) x, x ∈ register_all built reg → x ∈ built ∨ x ∈ reg.
Proof.
  induction built as [|d ds IH]; intros reg x Hx; simpl in *; [by right|].
  apply IH in Hx as [Hx|Hx]; [left; set_solver|].
  apply GDALRegister_from in Hx as [->|Hx]; [left; set_solver|by right].
Qed.

(** When every built-in driver is registered already, registration changes
    nothing. *)
Lemma register_all_fixed (built : list string) :
  ∀ reg : list string, (∀ x, x ∈ built → x ∈ reg) → register_all built reg = reg.
Proof.
  induction built as [|d ds IH]; intros reg Hall; simpl; [done|].
  assert (GDALRegister d reg = reg) as ->.
  { unfold GDALRegister. rewrite bool_decide_eq_true_2; [done|]. apply Hall. set_solver. }
  apply IH. intros x Hx. apply Hall. set_solver.
Qed.

Lemma register_all_idempotent (built reg : list string) :
  register_all built (register_all built reg) = register_all built reg.
Proof.
  apply register_all_fixed. intros x Hx. by apply register_all_adds.
Qed.

Lemma registered_at_start (built : list string) (x : string) :
  x ∈ register_all built [] ↔ x ∈ built.
Proof.
  split.
  - intros Hx. apply register_all_from in Hx as [Hx|Hx]; [done|].
    by apply elem_of_nil in Hx.
  - apply register_all_adds.
Qed.

(** ** Stepping through the program *)

Ltac mstep :=
  unfold mbind, M_bind, mret, M_ret, call, modify, gets, fresh, undefined; simpl.

Lemma argv_at_1 (argv : cmdline) :
  argv_at argv 1 = match positional argv with [] => Null | a :: _ => Ref a end.
Proof.
  unfold argv_at, argc. by destruct argv as [prog [|a rest]].
Qed.

Ltac mrun :=
  unfold main, report, log_bbox, log_spatial_ref, GDALAllRegister, GDALOpenEx,
    GetLayer, GetExtent, read_envelope, live_envelope, GetSpatialRef, exportToWkt,
    read_cstring, CPLFree, GDALClose, printf, exit, spdlog_info, live_layer,
    live_dataset, deref;
  mstep.

Lemma GDALAllRegister_step (s : process) :
  GDALAllRegister s = (Return tt, registered s).
Proof. reflexivity. Qed.

Lemma openable_registered (s : process) (p : string) :
  openable (registered s) p GDAL_OF_VECTOR None =
  match files s !! p with
  | Some d =>
      if bool_decide (d_driver d ∈ register_all (builtin s) (registry s))
      then Some d else None
  | None => None
  end.
Proof.
  unfold openable, registered; simpl. destruct (files s !! p) as [d|]; [|done].
  by rewrite andb_true_r.
Qed.

(** Lines 15-27 when the open gives a null handle. *)
Lemma main_open_failed (argv : cmdline) (s : process) :
  (argv_at argv 1 = Null ∨
   ∃ p, argv_at argv 1 = Ref p ∧ openable (registered s) p GDAL_OF_VECTOR None = None) →
  main argv s =
  (Exited 1,
   emit (EvPrintf ("Open failed." +:+ newline))
        (emit (EvOpenEx (argv_at argv 1) GDAL_OF_VECTOR Null) (registered s))).
Proof.
  intros [Hnull|(p & Hp & Hopen)]; mrun.
  - by rewrite Hnull.
  - rewrite Hp. fold (registered s). by rewrite Hopen.
Qed.

(** Lines 15-31 when the open gives a handle: the run stops at the extent
    query, on a null layer when the dataset has none, and on the
    indeterminate [poEnvelope] otherwise. *)
Lemma main_opened (argv : cmdline) (s : process) (p : string) (d : dataset) :
  argv_at argv 1 = Ref p →
  openable (registered s) p GDAL_OF_VECTOR None = Some d →
  let h := next_handle s in
  main argv s =
  match d_layers d with
  | [] =>
      (Undefined AtGetExtent NullPointer,
       emit (EvGetLayer h 0 Null) (with_open p d (registered s)))
  | _ :: _ =>
      (Undefined AtGetExtent IndeterminateValue,
       emit (EvGetLayer h 0 (Ref (h, 0%nat))) (with_open p d (registered s)))
  end.
Proof.
  intros Hp Hopen h. mrun. rewrite Hp. fold (registered s). rewrite Hopen. mstep.
  rewrite lookup_insert_eq. destruct (d_layers d) as [|l ls] eqn:Hl; simpl.
  - done.
  - rewrite lookup_insert_eq, Hl. done.
Qed.

(** ** Lines 31-39 on their own *)

(** With a null [poLayer] the extent query is the end, whatever the other
    locals hold. *)
Lemma report_null_layer (poDS : pointer handle) (poEnvelope : pointer address)
    (s : process) :
  report poDS Null poEnvelope s = (Undefined AtGetExtent NullPointer, s).
Proof. reflexivity. Qed.

(** With an indeterminate [poEnvelope] and a live layer the extent query is
    the end as well. *)
Lemma report_indeterminate_envelope (poDS : pointer handle) (h i : nat)
    (d : dataset) (l : layer) (s : process) :
  datasets s !! h = Some d →
  d_layers d !! i = Some l →
  report poDS (Ref (h, i)) Indeterminate s = (Undefined AtGetExtent IndeterminateValue, s).
Proof.
  intros Hd Hl. mrun. rewrite Hd. simpl. by rewrite Hl.
Qed.

(** Lines 33-35 on a layer without a spatial reference. *)
Lemma log_spatial_ref_no_srs (h i : nat) (d : dataset) (l : layer) (s : process) :
  datasets s !! h = Some d →
  d_layers d !! i = Some l →
  l_srs l = None →
  log_spatial_ref (Ref (h, i)) s =
  (Undefined AtExportToWkt NullPointer, emit (EvGetSpatialRef (h, i) Null) s).
Proof.
  intros Hd Hl Hsrs. mrun. rewrite Hd. simpl. rewrite Hl. simpl. by rewrite Hsrs.
Qed.

(** Lines 31-39 when they return: [poLayer] and [poEnvelope] were live
    pointers, and the calls were those of [report_trace], in that order. *)
Lemma report_returns (poDS : pointer handle) (poLayer : pointer layer_ref)
    (poEnvelope : pointer address) (s s' : process) (c : Z) :
  report poDS poLayer poEnvelope s = (Return c, s') →
  ∃ r a err e wkt,
    poLayer = Ref r ∧ poEnvelope = Ref a ∧ c = 0 ∧
    trace s' = trace s ++ report_trace poDS r a err e (next_handle s) wkt ∧
    files s' = files s.
Proof.
  mrun. destruct poLayer as [| |[h i]]; simpl; [intros [=]..|].
  destruct (datasets s !! h) as [d|] eqn:Hd; simpl; [|intros [=]].
  destruct (d_layers d !! i) as [l|] eqn:Hl; simpl; [|intros [=]].
  destruct poEnvelope as [| |a]; simpl; [intros [=]..|].
  destruct (envelopes s !! a) as [e0|] eqn:He; simpl; [|intros [=]].
  destruct (l_srs l) as [wkt|] eqn:Hsrs.
  2:{ destruct (l_extent l); simpl;
      repeat (first [rewrite lookup_insert_eq | rewrite Hd | rewrite Hl | rewrite He
                     | rewrite Hsrs]; simpl); intros [=]. }
  destruct (l_extent l) as [e|] eqn:Hext; simpl;
    repeat (first [rewrite lookup_insert_eq | rewrite Hd | rewrite Hl | rewrite He
                   | rewrite Hsrs]; simpl).
  - destruct poDS as [| |h0]; simpl; [intros [=]| |].
    + intros [= <- <-]. exists (h, i), a, OGRERR_NONE, e, wkt. simpl.
      by rewrite <- !app_assoc.
    + destruct (datasets s !! h0); simpl; [|intros [=]].
      intros [= <- <-]. exists (h, i), a, OGRERR_NONE, e, wkt. simpl.
      by rewrite <- !app_assoc.
  - destruct poDS as [| |h0]; simpl; [intros [=]| |].
    + intros [= <- <-]. exists (h, i), a, OGRERR_FAILURE, e0, wkt. simpl.
      by rewrite <- !app_assoc.
    + destruct (datasets s !! h0); simpl; [|intros [=]].
      intros [= <- <-]. exists (h, i), a, OGRERR_FAILURE, e0, wkt. simpl.
      by rewrite <- !app_assoc.
Qed.


(** ** The frame of the program *)

Lemma frames_ret {A} (a : A) : frames (mret a).
Proof.
  intros s. simpl. repeat split. exists []. by rewrite app_nil_r.
Qed.

Lemma frames_undefined {A} (w : site) (y : fault) : frames (@undefined A w y).
Proof.
  intros s. simpl. repeat split. exists []. by rewrite app_nil_r.
Qed.

Lemma frames_exit {A} (c : Z) : frames (@exit A c).
Proof.
  intros s. simpl. repeat split. exists []. by rewrite app_nil_r.
Qed.

Lemma frames_gets {A} (f : process → A) : frames (gets f).
Proof.
  intros s. simpl. repeat split. exists []. by rewrite app_nil_r.
Qed.

Lemma frames_modify (f : process → process) :
  (∀ s, files (f s) = files s ∧ builtin (f s) = builtin s ∧ trace (f s) = trace s) →
  frames (modify f).
Proof.
  intros Hf s. destruct (Hf s) as (H1 & H2 & H3). simpl. repeat split; [done..|].
  exists []. by rewrite app_nil_r.
Qed.

Lemma frames_call (e : event) : permitted e = true → frames (call e).
Proof.
  intros He s. simpl. repeat split. exists [e]. split; [done|]. by constructor.
Qed.

Lemma frames_bind {A B} (m : M A) (f : A → M B) :
  frames m → (∀ a, frames (f a)) → frames (m ≫= f).
Proof.
  intros Hm Hf s. destruct (Hm s) as (H1 & H2 & t1 & H3 & H4).
  unfold mbind, M_bind. destruct (m s) as [[a|c|w y] s1]; simpl in *.
  - destruct (Hf a s1) as (G1 & G2 & t2 & G3 & G4).
    rewrite G1, G2, G3, H1, H2, H3. repeat split. exists (t1 ++ t2).
    split; [by rewrite app_assoc|]. by apply Forall_app.
  - repeat split; [done..|]. by exists t1.
  - repeat split; [done..|]. by exists t1.
Qed.

Create HintDb frames.

#[local] Hint Resolve frames_ret frames_undefined frames_exit frames_gets : frames.

Ltac frames_step :=
  match goal with
  | |- frames (mbind _ _) => apply frames_bind; [|intros ?]
  | |- frames (call _) => apply frames_call; reflexivity
  | |- frames (modify _) => apply frames_modify; intros ?; repeat split
  | |- frames (match ?x with _ => _ end) => destruct x
  | |- frames _ => solve [auto with frames]
  end.

Ltac frames_auto := repeat frames_step.

Lemma frames_deref {T} (w : site) (p : pointer T) : frames (deref w p).
Proof. unfold deref. frames_auto. Qed.

Lemma frames_live_dataset (w : site) (h : handle) : frames (live_dataset w h).
Proof. unfold live_dataset. frames_auto. Qed.

#[local] Hint Resolve frames_deref frames_live_dataset : frames.

Lemma frames_live_layer (w : site) (r : layer_ref) : frames (live_layer w r).
Proof. unfold live_layer. frames_auto. Qed.

Lemma frames_live_envelope (w : site) (p : pointer address) : frames (live_envelope w p).
Proof. unfold live_envelope. frames_auto. Qed.

Lemma frames_fresh : frames fresh.
Proof. unfold fresh. frames_auto. Qed.

#[local] Hint Resolve frames_live_layer frames_live_envelope frames_fresh : frames.

Lemma frames_GDALAllRegister : frames GDALAllRegister.
Proof. unfold GDALAllRegister. frames_auto. Qed.

Lemma frames_GDALOpenEx (pszFilename : pointer string) (nOpenFlags : Z)
    (allowed options siblings : option (list string)) :
  frames (GDALOpenEx pszFilename nOpenFlags allowed options siblings).
Proof. unfold GDALOpenEx. frames_auto. Qed.

Lemma frames_GetLayer (this : pointer handle) (iLayer : Z) : frames (GetLayer this iLayer).
Proof. unfold GetLayer. frames_auto. Qed.

Lemma frames_GetExtent (this : pointer layer_ref) (psExtent : pointer address) :
  frames (GetExtent this psExtent).
Proof. unfold GetExtent. frames_auto. Qed.

Lemma frames_read_envelope (p : pointer address) : frames (read_envelope p).
Proof. unfold read_envelope. frames_auto. Qed.

Lemma frames_GetSpatialRef (this : pointer layer_ref) : frames (GetSpatialRef this).
Proof. unfold GetSpatialRef. frames_auto. Qed.

Lemma frames_exportToWkt (this : pointer srs_ref) (ppszResult : pointer address) :
  frames (exportToWkt this ppszResult).
Proof. unfold exportToWkt. frames_auto. Qed.

Lemma frames_read_cstring (p : pointer address) : frames (read_cstring p).
Proof. unfold read_cstring. frames_auto. Qed.

Lemma frames_CPLFree (p : pointer address) : frames (CPLFree p).
Proof. unfold CPLFree. frames_auto. Qed.

Lemma frames_GDALClose (hDS : pointer handle) : frames (GDALClose hDS).
Proof. unfold GDALClose. frames_auto. Qed.

#[local] Hint Resolve frames_GDALAllRegister frames_GDALOpenEx frames_GetLayer
  frames_GetExtent frames_read_envelope frames_GetSpatialRef frames_exportToWkt
  frames_read_cstring frames_CPLFree frames_GDALClose : frames.

Lemma frames_report (poDS : pointer handle) (poLayer : pointer layer_ref)
    (poEnvelope : pointer address) :
  frames (report poDS poLayer poEnvelope).
Proof.
  unfold report, log_bbox, log_spatial_ref, spdlog_info. frames_auto.
Qed.

Lemma frames_main (argv : cmdline) : frames (main argv).
Proof.
  unfold main, printf. pose proof frames_report. frames_auto.
Qed.

(** ** Whole runs *)

Lemma opens_openable (argv : cmdline) (fs : gmap string dataset) (built : list string) :
  match opens argv fs built with
  | Some (p, d) =>
      argv_at argv 1 = Ref p ∧ fs !! p = Some d ∧ d_driver d ∈ built ∧
      openable (registered (start fs built)) p GDAL_OF_VECTOR None = Some d
  | None =>
      argv_at argv 1 = Null ∨
      ∃ p, argv_at argv 1 = Ref p ∧
           openable (registered (start fs built)) p GDAL_OF_VECTOR None = None
  end.
Proof.
  unfold opens. rewrite argv_at_1.
  destruct (positional argv) as [|p rest]; [by left|].
  pose proof (openable_registered (start fs built) p) as Ho.
  change (files (start fs built)) with fs in Ho.
  change (builtin (start fs built)) with built in Ho.
  change (registry (start fs built)) with (@nil string) in Ho.
  destruct (fs !! p) as [d|] eqn:Hfs.
  - destruct (decide (d_driver d ∈ built)) as [Hd|Hd].
    + rewrite bool_decide_eq_true_2 in Ho by by apply registered_at_start.
      by rewrite bool_decide_eq_true_2.
    + rewrite bool_decide_eq_false_2 in Ho by by rewrite registered_at_start.
      rewrite bool_decide_eq_false_2 by done. right. by exists p.
  - right. by exists p.
Qed.

(** A run whose open fails. *)
Lemma run_open_failed (argv : cmdline) (fs : gmap string dataset) (built : list string) :
  opens argv fs built = None →
  run argv fs built =
  (Exited 1,
   mkProcess fs built (register_all built []) ∅ ∅ ∅ 0 (failure_trace (argv_at argv 1))).
Proof.
  intros Hopens. pose proof (opens_openable argv fs built) as H.
  rewrite Hopens in H. unfold run. by rewrite (main_open_failed _ _ H).
Qed.

(** A run whose open succeeds. *)
Lemma run_opened (argv : cmdline) (fs : gmap string dataset) (built : list string)
    (p : string) (d : dataset) :
  opens argv fs built = Some (p, d) →
  run argv fs built =
  (match d_layers d with
   | [] => Undefined AtGetExtent NullPointer
   | _ :: _ => Undefined AtGetExtent IndeterminateValue
   end,
   mkProcess fs built (register_all built []) {[ 0%nat := d ]} ∅ ∅ 1
     [EvAllRegister; EvOpenEx (Ref p) GDAL_OF_VECTOR (Ref 0%nat);
      EvGetLayer 0%nat 0 (match d_layers d with [] => Null | _ :: _ => Ref (0%nat, 0%nat) end)]).
Proof.
  intros Hopens. pose proof (opens_openable argv fs built) as H.
  rewrite Hopens in H. destruct H as (Hp & _ & _ & Ho).
  unfold run. rewrite (main_opened _ _ _ _ Hp Ho).
  by destruct (d_layers d).
Qed.

Lemma opens_cases (argv : cmdline) (fs : gmap string dataset) (built : list string) :
  opens argv fs built = None ∨ ∃ p d, opens argv fs built = Some (p, d).
Proof.
  destruct (opens argv fs built) as [[p d]|]; [right; by exists p, d|by left].
Qed.

(** The open of a run finds the dataset stored under [argv[1]] when one of
    the built-in drivers reads it. *)
Lemma opens_some (argv : cmdline) (fs : gmap string dataset) (built : list string)
    (p : string) (d : dataset) :
  argv_at argv 1 = Ref p →
  fs !! p = Some d →
  d_driver d ∈ built →
  opens argv fs built = Some (p, d).
Proof.
  intros Hp Hfs Hd. unfold opens. rewrite Hp, Hfs. by rewrite bool_decide_eq_true_2.
Qed.

(** ** The claims *)

(** C1.  Claimed: on a dataset that opens and whose first layer has an
    extent and a spatial reference, a run logs the two lines and exits with
    code 0.  The code does not: every such run stops at the extent query of
    line 31, which is handed the indeterminate [poEnvelope]; nothing has been
    logged by then and the run has no exit code. *)
Theorem valid_dataset_run_stops_at_extent_query
    (argv : cmdline) (fs : gmap string dataset) (built : list string)
    (p : string) (d : dataset) (l : layer) (ls : list layer)
    (e : OGREnvelope) (wkt : string) :
  argv_at argv 1 = Ref p →
  fs !! p = Some d →
  d_driver d ∈ built →
  d_layers d = l :: ls →
  l_extent l = Some e →
  l_srs l = Some wkt →
  (run argv fs built).1 = Undefined AtGetExtent IndeterminateValue ∧
  trace (run argv fs built).2 =
    [EvAllRegister; EvOpenEx (Ref p) GDAL_OF_VECTOR (Ref 0%nat);
     EvGetLayer 0%nat 0 (Ref (0%nat, 0%nat))] ∧
  log_lines (run argv fs built).2 = [] ∧
  (run argv fs built).1 ≠ Exited 0.
Proof.
  intros Hp Hfs Hd Hl _ _.
  rewrite (run_opened _ _ _ _ _ (opens_some _ _ _ _ _ Hp Hfs Hd)), Hl. simpl.
  repeat split; done.
Qed.

Lemma valid_dataset_run_stops_at_extent_query_witness :
  (run (probe ["a.shp"]) disk gdal_build).1
    = Undefined AtGetExtent IndeterminateValue ∧
  log_lines (run (probe ["a.shp"]) disk gdal_build).2 = [].
Proof.
  pose proof (valid_dataset_run_stops_at_extent_query
                (probe ["a.shp"]) disk gdal_build "a.shp" a_shp
                layer_wgs84 []
                (mkEnvelope d_0 d_10 d_0 d_5) wgs84
                eq_refl eq_refl (list_elem_of_here _ _) eq_refl eq_refl eq_refl)
    as (H1 & _ & H3 & _).
  exact (conj H1 H3).
Defined.

(** C2.  A run in which the open returns a null handle makes exactly three
    calls (registration, the open, the print of the failure message) and
    exits with code 1: no layer is touched and nothing is logged.  The open
    of a path that names no dataset returns a null handle.  Exit code 1
    comes from no other run. *)
Theorem open_failure_exits_1
    (argv : cmdline) (fs : gmap string dataset) (built : list string) :
  ((∃ p fl, EvOpenEx p fl Null ∈ trace (run argv fs built).2) →
     (run argv fs built).1 = Exited 1 ∧
     trace (run argv fs built).2 = failure_trace (argv_at argv 1) ∧
     Forall (λ e, is_probe_call e = false) (trace (run argv fs built).2)) ∧
  (∀ p, argv_at argv 1 = Ref p → fs !! p = None →
     EvOpenEx (Ref p) GDAL_OF_VECTOR Null ∈ trace (run argv fs built).2) ∧
  ((run argv fs built).1 = Exited 1 →
     ∃ p, EvOpenEx p GDAL_OF_VECTOR Null ∈ trace (run argv fs built).2).
Proof.
  destruct (opens_cases argv fs built) as [Hnone|(p & d & Hsome)].
  - rewrite (run_open_failed _ _ _ Hnone). simpl. repeat split.
    + unfold failure_trace. repeat constructor.
    + intros p Hp _. rewrite Hp. unfold failure_trace.
      apply elem_of_cons. right. apply elem_of_cons. by left.
    + intros _. exists (argv_at argv 1). unfold failure_trace.
      apply elem_of_cons. right. apply elem_of_cons. by left.
  - rewrite (run_opened _ _ _ _ _ Hsome). simpl. split; [|split].
    + intros (q & fl & Hin). exfalso.
      repeat (apply elem_of_cons in Hin as [[=]|Hin]). by apply elem_of_nil in Hin.
    + intros q Hq Hfs. pose proof (opens_openable argv fs built) as Ho.
      rewrite Hsome in Ho. destruct Ho as (Hp & Hd & _). congruence.
    + by destruct (d_layers d).
Qed.

Lemma open_failure_exits_1_witness :
  (run (probe ["b.shp"]) disk gdal_build).1 = Exited 1 ∧
  trace (run (probe ["b.shp"]) disk gdal_build).2
    = failure_trace (Ref "b.shp").
Proof.
  pose proof (open_failure_exits_1 (probe ["b.shp"]) disk gdal_build)
    as (Hfail & Hmissing & _).
  destruct Hfail as (H1 & H2 & _).
  - exists (Ref "b.shp"), GDAL_OF_VECTOR. apply Hmissing; reflexivity.
  - exact (conj H1 H2).
Defined.

(** C3.  Claimed: the pointer handed to the extent query refers to allocated
    envelope storage.  The code hands it [poEnvelope] as declared at line 30,
    never assigned: whenever the open gives a handle and the dataset has a
    layer, [main] is at line 31 with an indeterminate [poEnvelope], the query
    is undefined there, no envelope object has been created since the start
    of [main], and neither the query nor a log line completes. *)
Theorem extent_query_gets_indeterminate_pointer
    (argv : cmdline) (s : process) (p : string) (d : dataset)
    (l : layer) (ls : list layer) :
  argv_at argv 1 = Ref p →
  openable (registered s) p GDAL_OF_VECTOR None = Some d →
  d_layers d = l :: ls →
  ∃ s1 : process,
    main argv s = report (Ref (next_handle s)) (Ref (next_handle s, 0%nat)) Indeterminate s1 ∧
    main argv s = (Undefined AtGetExtent IndeterminateValue, s1) ∧
    envelopes s1 = envelopes s ∧
    trace s1 = trace s ++ [EvAllRegister;
                           EvOpenEx (Ref p) GDAL_OF_VECTOR (Ref (next_handle s));
                           EvGetLayer (next_handle s) 0 (Ref (next_handle s, 0%nat))].
Proof.
  intros Hp Hopen Hl. pose proof (main_opened argv s p d Hp Hopen) as Hmain.
  simpl in Hmain. rewrite Hl in Hmain. eexists. split; [|split; [exact Hmain|split]].
  - rewrite Hmain. symmetry.
    apply (report_indeterminate_envelope _ _ _ d l).
    + simpl. apply lookup_insert_eq.
    + by rewrite Hl.
  - reflexivity.
  - simpl. by rewrite <- !app_assoc.
Qed.

Lemma extent_query_gets_indeterminate_pointer_witness :
  ∃ s1 : process,
    main (probe ["a.shp"]) (start disk gdal_build)
      = (Undefined AtGetExtent IndeterminateValue, s1) ∧
    envelopes s1 = ∅.
Proof.
  destruct (extent_query_gets_indeterminate_pointer
              (probe ["a.shp"]) (start disk gdal_build) "a.shp" a_shp
              layer_wgs84 []
              eq_refl eq_refl eq_refl) as (s1 & _ & H2 & H3 & _).
  exists s1. exact (conj H2 H3).
Defined.

(** C4.  A dataset that opens and has no layer: [GetLayer(0)] returns a null
    layer, and the next call, the extent query of line 31, is made on it.
    The run is undefined there: no message is printed and there is no exit
    code.  Lines 31-39 do this on a null [poLayer] whatever the other locals
    hold. *)
Theorem zero_layers_null_layer_dereferenced
    (argv : cmdline) (fs : gmap string dataset) (built : list string)
    (p : string) (d : dataset) :
  argv_at argv 1 = Ref p →
  fs !! p = Some d →
  d_driver d ∈ built →
  d_layers d = [] →
  (run argv fs built).1 = Undefined AtGetExtent NullPointer ∧
  trace (run argv fs built).2 =
    [EvAllRegister; EvOpenEx (Ref p) GDAL_OF_VECTOR (Ref 0%nat); EvGetLayer 0%nat 0 Null] ∧
  (∀ (poDS : pointer handle) (poEnvelope : pointer address) (s : process),
     report poDS Null poEnvelope s = (Undefined AtGetExtent NullPointer, s)).
Proof.
  intros Hp Hfs Hd Hl.
  rewrite (run_opened _ _ _ _ _ (opens_some _ _ _ _ _ Hp Hfs Hd)), Hl. simpl.
  split; [done|split; [done|]]. apply report_null_layer.
Qed.

Lemma zero_layers_null_layer_dereferenced_witness :
  (run (probe ["empty.gpkg"]) disk gdal_build).1
    = Undefined AtGetExtent NullPointer.
Proof.
  exact (proj1 (zero_layers_null_layer_dereferenced
                  (probe ["empty.gpkg"]) disk gdal_build
                  "empty.gpkg" empty_gpkg eq_refl eq_refl
                  (list_elem_of_further _ _ _ (list_elem_of_here _ _)) eq_refl)).
Defined.

(** C5.  A live layer without a spatial reference: [GetSpatialRef] returns
    null and lines 33-35 call [exportToWkt] on it, which is undefined; no
    check stands between the two calls and nothing is reported.  Lines 31-39
    end the same way when [poEnvelope] refers to a live envelope. *)
Theorem missing_srs_null_export
    (h i : nat) (d : dataset) (l : layer) (s : process) :
  datasets s !! h = Some d →
  d_layers d !! i = Some l →
  l_srs l = None →
  log_spatial_ref (Ref (h, i)) s =
    (Undefined AtExportToWkt NullPointer, emit (EvGetSpatialRef (h, i) Null) s) ∧
  (∀ (poDS : pointer handle) (a : address) (e0 : OGREnvelope),
     envelopes s !! a = Some e0 →
     ∃ s', report poDS (Ref (h, i)) (Ref a) s = (Undefined AtExportToWkt NullPointer, s') ∧
           last (trace s') = Some (EvGetSpatialRef (h, i) Null)).
Proof.
  intros Hd Hl Hsrs. split; [by apply (log_spatial_ref_no_srs h i d l)|].
  intros poDS a e0 He.
  destruct (l_extent l) as [e|] eqn:Hext; eexists;
    (split;
     [ mrun;
       repeat (first [rewrite lookup_insert_eq | rewrite Hd | rewrite Hl | rewrite He
                      | rewrite Hext | rewrite Hsrs]; simpl);
       reflexivity
     | simpl; apply last_snoc ]).
Qed.

Lemma missing_srs_null_export_witness :
  log_spatial_ref (Ref (0%nat, 0%nat)) (opened "nosrs.shp" nosrs_shp) =
    (Undefined AtExportToWkt NullPointer,
     emit (EvGetSpatialRef (0%nat, 0%nat) Null) (opened "nosrs.shp" nosrs_shp)).
Proof.
  exact (proj1 (missing_srs_null_export 0 0 nosrs_shp
                  layer_nosrs (opened "nosrs.shp" nosrs_shp)
                  eq_refl eq_refl eq_refl)).
Defined.

Lemma run_files (argv : cmdline) (fs : gmap string dataset) (built : list string) :
  files (run argv fs built).2 = fs.
Proof.
  destruct (opens_cases argv fs built) as [Hnone|(p & d & Hsome)].
  - by rewrite (run_open_failed _ _ _ Hnone).
  - by rewrite (run_opened _ _ _ _ _ Hsome).
Qed.



(** C7.  When lines 31-39 return, the calls since line 31 are, in this order:
    the extent query, the first log line, the spatial-reference query, the
    export, the second log line, [CPLFree] of the exported buffer,
    [GDALClose] of [poDS].  A run whose open returns a null handle ends with
    no dataset handle, no string buffer and no envelope in the process, and
    without a release call. *)
Theorem release_follows_logging
    (poDS : pointer handle) (poLayer : pointer layer_ref) (poEnvelope : pointer address)
    (s s' : process) (c : Z)
    (argv : cmdline) (fs : gmap string dataset) (built : list string) :
  (report poDS poLayer poEnvelope s = (Return c, s') →
     c = 0 ∧
     ∃ r a err e wkt,
       trace s' = trace s ++
         [EvGetExtent r a err;
          EvLogInfo "OGR bbox: {} {} {} {}"
                    [FDouble (MinX e); FDouble (MinY e); FDouble (MaxX e); FDouble (MaxY e)];
          EvGetSpatialRef r (Ref r);
          EvExportToWkt r (next_handle s);
          EvLogInfo "OGR spatial reference: {}" [FString wkt];
          EvCPLFree (Ref (next_handle s));
          EvClose poDS]) ∧
  ((∃ p fl, EvOpenEx p fl Null ∈ trace (run argv fs built).2) →
     datasets (run argv fs built).2 = ∅ ∧
     cstrings (run argv fs built).2 = ∅ ∧
     envelopes (run argv fs built).2 = ∅ ∧
     Forall (λ e, match e with EvCPLFree _ | EvClose _ => False | _ => True end)
            (trace (run argv fs built).2)).
Proof.
  split.
  - intros Hret. apply report_returns in Hret
      as (r & a & err & e & wkt & _ & _ & Hc & Htrace & _).
    split; [done|]. by exists r, a, err, e, wkt.
  - intros (q & fl & Hin).
    destruct (opens_cases argv fs built) as [Hnone|(p & d & Hsome)].
    + rewrite (run_open_failed _ _ _ Hnone). simpl.
      repeat split. unfold failure_trace. by repeat constructor.
    + rewrite (run_opened _ _ _ _ _ Hsome) in Hin. simpl in Hin. exfalso.
      repeat (apply elem_of_cons in Hin as [[=]|Hin]). by apply elem_of_nil in Hin.
Qed.

Lemma release_follows_logging_witness :
  (∃ r a err e wkt,
     trace (report (Ref 0%nat) (Ref (0%nat, 0%nat)) (Ref 7%nat) (opened "a.shp" a_shp)).2 =
     trace (opened "a.shp" a_shp) ++
       [EvGetExtent r a err;
        EvLogInfo "OGR bbox: {} {} {} {}"
                  [FDouble (MinX e); FDouble (MinY e); FDouble (MaxX e); FDouble (MaxY e)];
        EvGetSpatialRef r (Ref r);
        EvExportToWkt r 8%nat;
        EvLogInfo "OGR spatial reference: {}" [FString wkt];
        EvCPLFree (Ref 8%nat);
        EvClose (Ref 0%nat)]) ∧
  datasets (run (probe ["b.shp"]) disk gdal_build).2 = ∅.
Proof.
  destruct (release_follows_logging
              (Ref 0%nat) (Ref (0%nat, 0%nat)) (Ref 7%nat) (opened "a.shp" a_shp)
              (report (Ref 0%nat) (Ref (0%nat, 0%nat)) (Ref 7%nat) (opened "a.shp" a_shp)).2 0
              (probe ["b.shp"]) disk gdal_build) as [Hreport Hfail].
  split.
  - apply Hreport. vm_compute. reflexivity.
  - apply Hfail. exists (Ref "b.shp"), GDAL_OF_VECTOR.
    change (trace (run (probe ["b.shp"]) disk gdal_build).2)
      with (failure_trace (Ref "b.shp")).
    unfold failure_trace. apply elem_of_cons. right. apply elem_of_cons. by left.
Defined.

(** C8.  In every run the first call is the registration, the second is the
    open, and neither is made again.  Registering twice leaves the process
    as registering once does, but for the second entry in the call trace;
    on the registry itself, registration after registration changes
    nothing. *)
Theorem registration_once_before_open
    (argv : cmdline) (fs : gmap string dataset) (built : list string)
    (s : process) (reg : list string) :
  (∃ ret rest,
     trace (run argv fs built).2 =
       EvAllRegister :: EvOpenEx (argv_at argv 1) GDAL_OF_VECTOR ret :: rest ∧
     Forall (λ e, e ≠ EvAllRegister ∧ is_open e = false) rest) ∧
  exec (GDALAllRegister;; GDALAllRegister) s = emit EvAllRegister (exec GDALAllRegister s) ∧
  registry (exec (GDALAllRegister;; GDALAllRegister) s) = registry (exec GDALAllRegister s) ∧
  register_all built (register_all built reg) = register_all built reg.
Proof.
  split; [|split; [|split]].
  - destruct (opens_cases argv fs built) as [Hnone|(p & d & Hsome)].
    + rewrite (run_open_failed _ _ _ Hnone). simpl. eexists _, _. split; [reflexivity|].
      by repeat constructor.
    + pose proof (opens_openable argv fs built) as Ho. rewrite Hsome in Ho.
      destruct Ho as (Hp & _). rewrite (run_opened _ _ _ _ _ Hsome), Hp. simpl.
      eexists _, _. split; [reflexivity|]. by repeat constructor.
  - unfold exec, GDALAllRegister. mstep. unfold emit, set_registry; simpl.
    by rewrite register_all_idempotent.
  - unfold exec, GDALAllRegister. mstep. apply register_all_idempotent.
  - apply register_all_idempotent.
Qed.

(** C9.  From any process state, [main] leaves the datasets on disk as they
    were and makes permitted calls only: registration, output, the string
    buffer, the dataset handle, and the three layer queries; no call into
    the point-cloud library, no write to a dataset; the open is called once
    and the export at most once.  Lines 31-39 keep the same frame for every
    value of the locals. *)
Theorem effects_within_frame
    (argv : cmdline) (s : process)
    (poDS : pointer handle) (poLayer : pointer layer_ref) (poEnvelope : pointer address) :
  (files (main argv s).2 = files s ∧
   ∃ t, trace (main argv s).2 = trace s ++ t ∧
        Forall (λ e, permitted e = true) t ∧
        (∀ op, EvPdal op ∉ t) ∧
        (∀ path, EvDatasetWrite path ∉ t) ∧
        length (filter (λ e, is_open e = true) t) = 1%nat ∧
        (length (filter (λ e, is_export e = true) t) ≤ 1)%nat) ∧
  (files (report poDS poLayer poEnvelope s).2 = files s ∧
   ∃ t, trace (report poDS poLayer poEnvelope s).2 = trace s ++ t ∧
        Forall (λ e, permitted e = true) t).
Proof.
  split.
  - assert (argv_at argv 1 = Null ∨
            ∃ p, argv_at argv 1 = Ref p) as [Hnull|(p & Hp)].
    { rewrite argv_at_1. destruct (positional argv); [by left|right; eauto]. }
    + rewrite (main_open_failed argv s (or_introl Hnull)). simpl. split; [done|].
      eexists. split; [by rewrite <- !app_assoc|]. simpl.
      split; [by repeat constructor|].
      split; [intros op Hin|split; [intros path Hin|split; [done|lia]]];
        repeat (apply elem_of_cons in Hin as [[=]|Hin]); by apply elem_of_nil in Hin.
    + destruct (openable (registered s) p GDAL_OF_VECTOR None) as [d|] eqn:Hopen.
      * rewrite (main_opened argv s p d Hp Hopen).
        destruct (d_layers d); simpl; (split; [done|]);
          (eexists; split; [by rewrite <- !app_assoc|]); simpl;
          (split; [by repeat constructor|]);
          (split; [intros op Hin|split; [intros path Hin|split; [done|lia]]]);
          repeat (apply elem_of_cons in Hin as [[=]|Hin]); by apply elem_of_nil in Hin.
      * rewrite (main_open_failed argv s (or_intror (ex_intro _ p (conj Hp Hopen)))).
        simpl. split; [done|].
        eexists. split; [by rewrite <- !app_assoc|]. simpl.
        split; [by repeat constructor|].
        split; [intros op Hin|split; [intros path Hin|split; [done|lia]]];
          repeat (apply elem_of_cons in Hin as [[=]|Hin]); by apply elem_of_nil in Hin.
  - destruct (frames_report poDS poLayer poEnvelope s) as (H1 & _ & H3). done.
Qed.

(** C10.  With no positional argument [argv[1]] is the null terminator of
    the argument vector; [main] passes it to the open without looking at
    [argc], the open returns a null handle, and the run is the open-failure
    run: the same three calls, the same message, exit code 1, as for a path
    that names no dataset. *)
Theorem missing_argument_is_open_failure
    (prog : string) (fs : gmap string dataset) (built : list string) (p : string) :
  argv_at (mkCmdline prog []) 1 = Null ∧
  run (mkCmdline prog []) fs built =
    (Exited 1,
     mkProcess fs built (register_all built []) ∅ ∅ ∅ 0
       [EvAllRegister; EvOpenEx Null GDAL_OF_VECTOR Null;
        EvPrintf ("Open failed." +:+ newline)]) ∧
  (fs !! p = None →
   (run (mkCmdline prog [p]) fs built).1 = (run (mkCmdline prog []) fs built).1 ∧
   filter (λ e, is_open e = false) (trace (run (mkCmdline prog [p]) fs built).2) =
   filter (λ e, is_open e = false) (trace (run (mkCmdline prog []) fs built).2)).
Proof.
  split; [done|]. split.
  - by rewrite run_open_failed.
  - intros Hfs. rewrite !run_open_failed; [done|done|].
    unfold opens. simpl. by rewrite Hfs.
Qed.

Lemma missing_argument_is_open_failure_witness :
  (run (probe ["b.shp"]) disk gdal_build).1
    = (run (probe []) disk gdal_build).1.
Proof.
  exact (proj1 (proj2 (proj2 (missing_argument_is_open_failure
                                "probe" disk gdal_build "b.shp")) eq_refl)).
Defined.

(** ** Further properties of [main] and of lines 31-39 *)

(** X1.  Lines 31-39 on live pointers and a layer that has an extent and a
    spatial reference: they return 0 and log two lines, the extent in the
    order MinX, MinY, MaxX, MaxY and then the well-known text; on return the
    envelope holds the extent, the handle is closed, no string buffer has
    been added and the datasets on disk are as before. *)
Theorem report_logs_extent_then_srs
    (h i : nat) (a : address) (d : dataset) (l : layer)
    (e0 e : OGREnvelope) (wkt : string) (s : process) :
  datasets s !! h = Some d →
  d_layers d !! i = Some l →
  envelopes s !! a = Some e0 →
  l_extent l = Some e →
  l_srs l = Some wkt →
  cstrings s !! next_handle s = None →
  ∃ s',
    report (Ref h) (Ref (h, i)) (Ref a) s = (Return 0, s') ∧
    log_lines s' = log_lines s ++
      [EvLogInfo "OGR bbox: {} {} {} {}"
                 [FDouble (MinX e); FDouble (MinY e); FDouble (MaxX e); FDouble (MaxY e)];
       EvLogInfo "OGR spatial reference: {}" [FString wkt]] ∧
    envelopes s' !! a = Some e ∧
    datasets s' !! h = None ∧
    cstrings s' = cstrings s ∧
    files s' = files s.
Proof.
  intros Hd Hl He Hext Hsrs Hfresh. eexists. split.
  - mrun.
    repeat (first [rewrite lookup_insert_eq | rewrite Hd | rewrite Hl | rewrite He
                   | rewrite Hext | rewrite Hsrs]; simpl).
    reflexivity.
  - split.
    { unfold log_lines. simpl. rewrite <- !app_assoc. simpl. by rewrite filter_app. } split; [apply lookup_insert_eq|].
    split; [apply lookup_delete_eq|]. split; [|reflexivity].
    rewrite delete_insert_eq. by apply delete_id.
Qed.

Lemma report_logs_extent_then_srs_witness :
  ∃ s',
    report (Ref 0%nat) (Ref (0%nat, 0%nat)) (Ref 7%nat) (opened "a.shp" a_shp)
      = (Return 0, s') ∧
    log_lines s' =
      [EvLogInfo "OGR bbox: {} {} {} {}"
                 [FDouble d_0; FDouble d_0; FDouble d_10; FDouble d_5];
       EvLogInfo "OGR spatial reference: {}" [FString wgs84]].
Proof.
  destruct (report_logs_extent_then_srs 0 0 7 a_shp layer_wgs84
              (mkEnvelope d_inf d_neg_inf d_inf d_neg_inf)
              (mkEnvelope d_0 d_10 d_0 d_5) wgs84 (opened "a.shp" a_shp)
              eq_refl eq_refl eq_refl eq_refl eq_refl eq_refl)
    as (s' & H1 & H2 & _).
  exists s'. exact (conj H1 H2).
Defined.

(** X2.  The error code of the extent query is dropped: whenever the query
    returns, with [OGRERR_NONE] or with [OGRERR_FAILURE], lines 31-32 log the
    four members of the envelope as the query left it, and a failed query is
    not reported. *)
Theorem extent_error_code_is_dropped
    (poLayer : pointer layer_ref) (poEnvelope : pointer address)
    (err : OGRErr) (s s1 : process) :
  GetExtent poLayer poEnvelope s = (Return err, s1) →
  ∃ a e1,
    poEnvelope = Ref a ∧
    envelopes s1 !! a = Some e1 ∧
    log_bbox poLayer poEnvelope s =
      (Return tt,
       emit (EvLogInfo "OGR bbox: {} {} {} {}"
                       [FDouble (MinX e1); FDouble (MinY e1); FDouble (MaxX e1); FDouble (MaxY e1)])
            s1).
Proof.
  mrun. destruct poLayer as [| |[h i]]; simpl; [intros [=]..|].
  destruct (datasets s !! h) as [d|] eqn:Hd; simpl; [|intros [=]].
  destruct (d_layers d !! i) as [l|] eqn:Hl; simpl; [|intros [=]].
  destruct poEnvelope as [| |a]; simpl; [intros [=]..|].
  destruct (envelopes s !! a) as [e0|] eqn:He; simpl; [|intros [=]].
  destruct (l_extent l) as [e|] eqn:Hext; simpl; intros [= <- <-]; simpl.
  - exists a, e. rewrite lookup_insert_eq. done.
  - exists a, e0. rewrite He. done.
Qed.

Lemma extent_error_code_is_dropped_witness :
  log_lines (log_bbox (Ref (0%nat, 0%nat)) (Ref 7%nat) (opened "n.shp" noextent_shp)).2 =
    [EvLogInfo "OGR bbox: {} {} {} {}"
               [FDouble d_inf; FDouble d_inf; FDouble d_neg_inf; FDouble d_neg_inf]].
Proof.
  destruct (extent_error_code_is_dropped
              (Ref (0%nat, 0%nat)) (Ref 7%nat) OGRERR_FAILURE
              (opened "n.shp" noextent_shp)
              (emit (EvGetExtent (0%nat, 0%nat) 7%nat OGRERR_FAILURE)
                    (opened "n.shp" noextent_shp))
              eq_refl) as (a & e1 & Ha & He1 & Hlog).
  rewrite Hlog. injection Ha as <-. vm_compute in He1. injection He1 as <-.
  reflexivity.
Defined.

(** X3.  [main] reads [argv[1]] and nothing else of its arguments: the
    program name and any further positional argument have no influence on
    the run. *)
Theorem only_first_argument_is_read
    (prog prog' : string) (p : string) (rest rest' : list string) (s : process) :
  main (mkCmdline prog (p :: rest)) s = main (mkCmdline prog' (p :: rest')) s.
Proof.
  assert (∀ argv argv', argv_at argv 1 = argv_at argv' 1 → main argv s = main argv' s)
    as Hsame.
  { intros argv argv' Heq. unfold main. by rewrite Heq. }
  apply Hsame. by rewrite !argv_at_1.
Qed.

(** X4.  From any process state [main] has one of three outcomes: it exits
    with code 1 at line 26, or it leaves defined behaviour at the extent
    query of line 31, either on a null layer or on the indeterminate
    envelope pointer.  It is never undefined before line 31.  What a run
    does once it has left defined behaviour is not settled by the source and
    is not stated here. *)
Theorem main_outcomes (argv : cmdline) (s : process) :
  (main argv s).1 = Exited 1 ∨
  (main argv s).1 = Undefined AtGetExtent NullPointer ∨
  (main argv s).1 = Undefined AtGetExtent IndeterminateValue.
Proof.
  assert (argv_at argv 1 = Null ∨ ∃ p, argv_at argv 1 = Ref p) as [Hnull|(p & Hp)].
  { rewrite argv_at_1. destruct (positional argv); [by left|right; eauto]. }
  - left. by rewrite (main_open_failed argv s (or_introl Hnull)).
  - destruct (openable (registered s) p GDAL_OF_VECTOR None) as [d|] eqn:Hopen.
    + right. rewrite (main_opened argv s p d Hp Hopen).
      destruct (d_layers d); [by left|by right].
    + left. by rewrite (main_open_failed argv s
                          (or_intror (ex_intro _ p (conj Hp Hopen)))).
Qed.

(** X5.  Whenever lines 31-39 return, the string buffer they allocated has
    been freed and [poDS] has been closed; every other buffer and every other
    open handle is as before, the driver registry is untouched, and no
    envelope but the one [poEnvelope] refers to has changed. *)
Theorem report_return_releases
    (poDS : pointer handle) (poLayer : pointer layer_ref) (poEnvelope : pointer address)
    (s s' : process) (c : Z) :
  report poDS poLayer poEnvelope s = (Return c, s') →
  cstrings s' = delete (next_handle s) (cstrings s) ∧
  datasets s' = match poDS with Ref h => delete h (datasets s) | _ => datasets s end ∧
  (∀ a', poEnvelope ≠ Ref a' → envelopes s' !! a' = envelopes s !! a') ∧
  registry s' = registry s.
Proof.
  mrun. destruct poLayer as [| |[h i]]; simpl; [intros [=]..|].
  destruct (datasets s !! h) as [d|] eqn:Hd; simpl; [|intros [=]].
  destruct (d_layers d !! i) as [l|] eqn:Hl; simpl; [|intros [=]].
  destruct poEnvelope as [| |a]; simpl; [intros [=]..|].
  destruct (envelopes s !! a) as [e0|] eqn:He; simpl; [|intros [=]].
  destruct (l_srs l) as [wkt|] eqn:Hsrs.
  2:{ destruct (l_extent l); simpl;
      repeat (first [rewrite lookup_insert_eq | rewrite Hd | rewrite Hl | rewrite He
                     | rewrite Hsrs]; simpl); intros [=]. }
  destruct (l_extent l) as [e|] eqn:Hext; simpl;
    repeat (first [rewrite lookup_insert_eq | rewrite Hd | rewrite Hl | rewrite He
                   | rewrite Hsrs]; simpl);
    (destruct poDS as [| |h0]; simpl;
     [ intros [=]
     | intros [= <- <-]
     | destruct (datasets s !! h0); simpl; [intros [= <- <-]|intros [=]] ]);
    simpl; rewrite delete_insert_eq;
    (split; [done|split; [done|split; [|done]]]);
    intros a' Ha'; try done;
    apply lookup_insert_ne; congruence.
Qed.

Lemma report_return_releases_witness :
  cstrings (report (Ref 0%nat) (Ref (0%nat, 0%nat)) (Ref 7%nat) (opened "a.shp" a_shp)).2 = ∅ ∧
  datasets (report (Ref 0%nat) (Ref (0%nat, 0%nat)) (Ref 7%nat) (opened "a.shp" a_shp)).2 = ∅.
Proof.
  destruct (report_return_releases
              (Ref 0%nat) (Ref (0%nat, 0%nat)) (Ref 7%nat) (opened "a.shp" a_shp)
              (report (Ref 0%nat) (Ref (0%nat, 0%nat)) (Ref 7%nat) (opened "a.shp" a_shp)).2 0)
    as (H1 & H2 & _).
  - vm_compute. reflexivity.
  - rewrite H1, H2. split; vm_compute; reflexivity.
Defined.

(** X6.  Lines 31-39 never exit, return 0 only, and leave defined behaviour
    in three places only: at the extent query; at the export, on the null
    spatial reference of a live layer that has none; at the close, when
    [poDS] is no open handle.  The read of the envelope, the
    spatial-reference query, the read of the exported string and its release
    are never undefined. *)
Theorem report_undefined_sites
    (poDS : pointer handle) (poLayer : pointer layer_ref) (poEnvelope : pointer address)
    (s : process) :
  match (report poDS poLayer poEnvelope s).1 with
  | Return c => c = 0
  | Exited _ => False
  | Undefined w y =>
      w = AtGetExtent ∨
      (w = AtExportToWkt ∧ y = NullPointer ∧
       ∃ h i d l, poLayer = Ref (h, i) ∧ datasets s !! h = Some d ∧
                  d_layers d !! i = Some l ∧ l_srs l = None) ∨
      (w = AtClose ∧ y ≠ NullPointer ∧ ∀ h, poDS = Ref h → datasets s !! h = None)
  end.
Proof.
  mrun. destruct poLayer as [| |[h i]]; simpl; [by left..|].
  destruct (datasets s !! h) as [d|] eqn:Hd; simpl; [|by left].
  destruct (d_layers d !! i) as [l|] eqn:Hl; simpl; [|by left].
  destruct poEnvelope as [| |a]; simpl; [by left..|].
  destruct (envelopes s !! a) as [e0|] eqn:He; simpl; [|by left].
  destruct (l_srs l) as [wkt|] eqn:Hsrs.
  2:{ destruct (l_extent l); simpl;
      repeat (first [rewrite lookup_insert_eq | rewrite Hd | rewrite Hl | rewrite He
                     | rewrite Hsrs]; simpl);
      right; left; (split; [done|split; [done|]]); by exists h, i, d, l. }
  destruct (l_extent l) as [e|] eqn:Hext; simpl;
    repeat (first [rewrite lookup_insert_eq | rewrite Hd | rewrite Hl | rewrite He
                   | rewrite Hsrs]; simpl);
    (destruct poDS as [| |h0]; simpl;
     [ right; right; (split; [done|split; [done|intros ? [=]]])
     | done
     | destruct (datasets s !! h0) eqn:Hd0; simpl;
       [ done
       | right; right; (split; [done|split; [done|by intros ? [= <-]]]) ] ]).
Qed.
